(** * pypred: semantic validation of the predicate AST ([pypred/ast.py])

    A shallow embedding of the node classes of [ast.py], of their
    constructors ([__init__]), of the per-class rule ([_validate]), of the
    post-order driver ([Node.validate]) and of [Node.__repr__], followed by
    the properties of the validation pass.

    Python objects are mutable and [validate] works by side effect: it
    writes [self.valid] (and [self.re] on a [Regex]) and fills the [info]
    dictionary it is handed.  The embedding passes that state explicitly: a
    call takes the node and the dictionary and gives back the outcome of the
    call (a returned value or a raised exception) together with the node and
    the dictionary as the call leaves them.  The state is given back on a
    raise too, since Python keeps whatever was written before the raise. *)

From Stdlib Require Import Ascii.
From stdpp Require Import base option list strings gmap pretty.

Open Scope Z_scope.

(** ** What the module takes from Python

    [float], [str] and [repr] of a float, float equality, [repr] of an
    integer and of a string, and [re.compile] are Python built-ins, not code
    of the module.  The development is parametric in them. *)
Class PyRuntime := {
  (** the values of Python's [float] *)
  pyfloat : Type;
  (** [float(n)] of an integer; [None] is [OverflowError] *)
  float_of_int : Z → option pyfloat;
  (** [float(s)] of a byte string; [None] is [ValueError] *)
  float_of_str : string → option pyfloat;
  (** [x == y] on two floats *)
  float_eqb : pyfloat → pyfloat → bool;
  (** [x == n] of a float and an integer (or a boolean, as 0 and 1) *)
  float_eq_int : pyfloat → Z → bool;
  (** [str(x)] of a float *)
  float_str : pyfloat → string;
  (** [repr(x)] of a float *)
  float_repr : pyfloat → string;
  (** [repr(n)] of an integer (a long prints with its suffix) *)
  int_repr : Z → string;
  (** [repr(s)] of a byte string: quoted and escaped *)
  str_repr : string → string;
  (** compiled pattern objects *)
  pattern : Type;
  (** [re.compile(s)]: the pattern, or [repr(e)] of the exception raised *)
  re_compile : string → pattern + string
}.

(** Exceptions that the module's own code can raise. *)
Inductive exn :=
| TypeError (msg : string)
| AttributeError (msg : string).

(** How a call ends. *)
Inductive outcome (A : Type) :=
| Returns (a : A)
| Raises (e : exn).
Arguments Returns {A} a.
Arguments Raises {A} e.

Definition returned {A} (o : outcome A) : bool :=
  match o with Returns _ => true | Raises _ => false end.

(** ** The [info] dictionary

    [validate] uses two keys of it: ["errors"], a list of messages, and
    ["regex"], a dictionary from pattern text to the compiler's message.  A
    key that is absent is [None]. *)
Record info_t := Info {
  errors : option (list string);
  regex : option (gmap string string)
}.

(** [{}] *)
Definition empty_info : info_t := Info None None.

(** The messages recorded so far (none when the key is absent). *)
Definition errors_of (info : info_t) : list string := default [] (errors info).

(** [info.setdefault("errors", [])] *)
Definition setdefault_errors (info : info_t) : info_t :=
  match errors info with
  | Some _ => info
  | None => Info (Some []) (regex info)
  end.

(** [errs = info.setdefault("errors", []); errs.append(msg)] *)
Definition report (msg : string) (info : info_t) : info_t :=
  Info (Some (errors_of info ++ [msg])) (regex info).

(** [regexes = info.setdefault("regex", {}); regexes[k] = v] *)
Definition record_regex (k v : string) (info : info_t) : info_t :=
  Info (errors info) (Some (<[k:=v]> (default ∅ (regex info)))).

Section Ast.
Context {RT : PyRuntime}.

Set Warnings "-register-all".

(** ** Payloads

    What a node's [type] and [value] hold: [None], booleans, integers,
    floats, byte strings, and tuples of these.  Tuples are the payloads
    that [%] treats apart: on the right of a format, a tuple is the list of
    the arguments and not one argument. *)
Inductive pyval :=
| VNone
| VBool (b : bool)
| VInt (z : Z)
| VFloat (f : pyfloat)
| VStr (s : string)
| VTuple (items : list pyval).

(** The text of a tuple, from the [repr] of its items: [()], [(a,)],
    [(a, b)]. *)
Definition tuple_text (items : list string) : string :=
  match items with
  | [x] => "(" +:+ x +:+ ",)"
  | _ => "(" +:+ String.concat ", " items +:+ ")"
  end.

(** [repr(v)] *)
Fixpoint py_repr (v : pyval) : string :=
  match v with
  | VNone => "None"
  | VBool true => "True"
  | VBool false => "False"
  | VInt z => int_repr z
  | VFloat f => float_repr f
  | VStr s => str_repr s
  | VTuple items => tuple_text (map py_repr items)
  end.

(** [str(v)] *)
Definition py_str (v : pyval) : string :=
  match v with
  | VNone => "None"
  | VBool true => "True"
  | VBool false => "False"
  | VInt z => pretty z
  | VFloat f => float_str f
  | VStr s => s
  | VTuple items => tuple_text (map py_repr items)
  end.

(** [fmt % arg] where [fmt] has no conversion and [arg] is a string, or
    where [fmt] has one conversion and [arg] is a tuple of two items or
    more. *)
Definition format_without_directive : exn :=
  TypeError "not all arguments converted during string formatting".

(** The text that [fmt % v] puts in the place of the one [%s] of [fmt].  A
    tuple is taken as the list of the arguments: it must have one item. *)
Definition format_s (v : pyval) : outcome string :=
  match v with
  | VTuple [] => Raises (TypeError "not enough arguments for format string")
  | VTuple [x] => Returns (py_str x)
  | VTuple (_ :: _ :: _) => Raises format_without_directive
  | _ => Returns (py_str v)
  end.

(** [a == b] *)
Fixpoint py_eq (a b : pyval) {struct a} : bool :=
  match a, b with
  | VNone, VNone => true
  | VStr s, VStr t => bool_decide (s = t)
  | VBool x, VBool y => bool_decide (x = y)
  | VBool x, VInt z | VInt z, VBool x => Z.eqb (Z.b2z x) z
  | VInt z, VInt w => Z.eqb z w
  | VFloat f, VFloat g => float_eqb f g
  | VFloat f, VInt z | VInt z, VFloat f => float_eq_int f z
  | VFloat f, VBool x | VBool x, VFloat f => float_eq_int f (Z.b2z x)
  | VTuple xs, VTuple ys =>
      (fix all_eq (xs ys : list pyval) {struct xs} : bool :=
         match xs, ys with
         | [], [] => true
         | x :: xs, y :: ys => py_eq x y && all_eq xs ys
         | _, _ => false
         end) xs ys
  | _, _ => false
  end.

(** [v in (x1, ..., xn)] *)
Definition py_in (v : pyval) (xs : list pyval) : bool := existsb (py_eq v) xs.

(** [float(v)]; [None] when it raises ([TypeError] on [None] and on a
    tuple, [ValueError] on a string that is no number, [OverflowError] on a
    huge integer). *)
Definition py_float (v : pyval) : option pyfloat :=
  match v with
  | VNone => None
  | VBool b => float_of_int (Z.b2z b)
  | VInt z => float_of_int z
  | VFloat f => Some f
  | VStr s => float_of_str s
  | VTuple _ => None
  end.

(** [isinstance(v, float)] *)
Definition is_float (v : pyval) : bool :=
  match v with VFloat _ => true | _ => false end.

(** ** Nodes

    One constructor per class, with the attributes its [__init__] sets, so
    that [hasattr(self, "left")] and the like are read off the constructor.
    [valid] is [None] while the object has no such attribute; likewise [re]
    on a [Regex].  [Node] is the base class instantiated as such.  The
    operands of an operator are nodes, and a tree shares no node. *)
Inductive node :=
| Node (valid : option bool)
| LogicalOperator (valid : option bool) (type : pyval) (left right : node)
| NegateOperator (valid : option bool) (left : node)
| CompareOperator (valid : option bool) (type : pyval) (left right : node)
| ContainsOperator (valid : option bool) (left right : node)
| MatchOperator (valid : option bool) (left right : node)
| Regex (valid : option bool) (value : pyval) (re : option pattern)
| Literal (valid : option bool) (value : pyval)
| Number (valid : option bool) (value : pyval)
| Constant (valid : option bool) (value : pyval)
| Undefined (valid : option bool)
| Empty (valid : option bool).

(** [self.__class__.__name__] *)
Definition class_name (self : node) : string :=
  match self with
  | Node _ => "Node"
  | LogicalOperator _ _ _ _ => "LogicalOperator"
  | NegateOperator _ _ => "NegateOperator"
  | CompareOperator _ _ _ _ => "CompareOperator"
  | ContainsOperator _ _ _ => "ContainsOperator"
  | MatchOperator _ _ _ => "MatchOperator"
  | Regex _ _ _ => "Regex"
  | Literal _ _ => "Literal"
  | Number _ _ => "Number"
  | Constant _ _ => "Constant"
  | Undefined _ => "Undefined"
  | Empty _ => "Empty"
  end.

(** Attribute reads; [None] is [hasattr(self, ...) == False]. *)
Definition get_valid (self : node) : option bool :=
  match self with
  | Node v | LogicalOperator v _ _ _ | NegateOperator v _
  | CompareOperator v _ _ _ | ContainsOperator v _ _ | MatchOperator v _ _
  | Regex v _ _ | Literal v _ | Number v _ | Constant v _
  | Undefined v | Empty v => v
  end.

Definition get_type (self : node) : option pyval :=
  match self with
  | LogicalOperator _ t _ _ | CompareOperator _ t _ _ => Some t
  | _ => None
  end.

Definition get_value (self : node) : option pyval :=
  match self with
  | Regex _ x _ | Literal _ x | Number _ x | Constant _ x => Some x
  | _ => None
  end.

Definition get_left (self : node) : option node :=
  match self with
  | LogicalOperator _ _ l _ | NegateOperator _ l | CompareOperator _ _ l _
  | ContainsOperator _ l _ | MatchOperator _ l _ => Some l
  | _ => None
  end.

Definition get_right (self : node) : option node :=
  match self with
  | LogicalOperator _ _ _ r | CompareOperator _ _ _ r
  | ContainsOperator _ _ r | MatchOperator _ _ r => Some r
  | _ => None
  end.

Definition get_re (self : node) : option pattern :=
  match self with Regex _ _ c => c | _ => None end.

(** [self.valid = b] *)
Definition set_valid (b : bool) (self : node) : node :=
  match self with
  | Node _ => Node (Some b)
  | LogicalOperator _ t l r => LogicalOperator (Some b) t l r
  | NegateOperator _ l => NegateOperator (Some b) l
  | CompareOperator _ t l r => CompareOperator (Some b) t l r
  | ContainsOperator _ l r => ContainsOperator (Some b) l r
  | MatchOperator _ l r => MatchOperator (Some b) l r
  | Regex _ x c => Regex (Some b) x c
  | Literal _ x => Literal (Some b) x
  | Number _ x => Number (Some b) x
  | Constant _ x => Constant (Some b) x
  | Undefined _ => Undefined (Some b)
  | Empty _ => Empty (Some b)
  end.

(** ** Construction

    A constructor is the class's [__init__] run on a new object.  Only
    [Node.__init__] writes [valid]; no subclass calls it. *)

(** [Node.__init__] *)
Definition Node_init : outcome node := Returns (Node (Some false)).

(** [LogicalOperator.__init__] *)
Definition LogicalOperator_init (op : pyval) (left right : node) : outcome node :=
  Returns (LogicalOperator None op left right).

(** [NegateOperator.__init__] *)
Definition NegateOperator_init (expr : node) : outcome node :=
  Returns (NegateOperator None expr).

(** [CompareOperator.__init__] *)
Definition CompareOperator_init (comparison : pyval) (left right : node) : outcome node :=
  Returns (CompareOperator None comparison left right).

(** [ContainsOperator.__init__] *)
Definition ContainsOperator_init (left right : node) : outcome node :=
  Returns (ContainsOperator None left right).

(** [MatchOperator.__init__] *)
Definition MatchOperator_init (left right : node) : outcome node :=
  Returns (MatchOperator None left right).

(** What [Regex] may be given: a payload or a node. *)
Inductive regex_arg :=
| AVal (v : pyval)
| ANode (n : node).

(** [Regex.__init__]: [value.value] of a node, which raises when the node
    has no such attribute. *)
Definition Regex_init (value : regex_arg) : outcome node :=
  match value with
  | ANode n =>
      match get_value n with
      | Some v => Returns (Regex None v None)
      | None =>
          Raises (AttributeError
            ("'" +:+ class_name n +:+ "' object has no attribute 'value'"))
      end
  | AVal v => Returns (Regex None v None)
  end.

(** [Literal.__init__] *)
Definition Literal_init (value : pyval) : outcome node :=
  Returns (Literal None value).

(** [Number.__init__]: [float(value)], and the value as given when that
    raises. *)
Definition Number_init (value : pyval) : outcome node :=
  match py_float value with
  | Some f => Returns (Number None (VFloat f))
  | None => Returns (Number None value)
  end.

(** [Constant.__init__] *)
Definition Constant_init (value : pyval) : outcome node :=
  Returns (Constant None value).

(** [Undefined.__init__] *)
Definition Undefined_init : outcome node := Returns (Undefined None).

(** [Empty.__init__] *)
Definition Empty_init : outcome node := Returns (Empty None).

(** ** [Node.__repr__] *)
Definition __repr__ (self : node) : string :=
  let r := class_name self in
  let r := match get_type self with
           | Some t => r +:+ " t:" +:+ py_str t
           | None => r
           end in
  let r := match get_value self with
           | Some x => r +:+ " v:" +:+ py_str x
           | None => r
           end in
  let r := match get_left self with
           | Some l => r +:+ " l:" +:+ class_name l
           | None => r
           end in
  match get_right self with
  | Some x => r +:+ " r:" +:+ class_name x
  | None => r
  end.

(** ** The rules ([_validate])

    A rule gives its verdict, and leaves the node and [info] as it wrote
    them. *)
Definition rule_result : Type := outcome bool * node * info_t.

(** [errs = info.setdefault("errors", []); errs.append(prefix + "%s" % v);
    return False]: the list is made first, and a format that raises leaves
    it without the message. *)
Definition report_value (self : node) (prefix : string) (v : pyval) (info : info_t)
    : rule_result :=
  match format_s v with
  | Returns text => (Returns false, self, report (prefix +:+ text) info)
  | Raises e => (Raises e, self, setdefault_errors info)
  end.

(** [LogicalOperator._validate] *)
Definition LogicalOperator_validate (self : node) (type : pyval) (info : info_t) : rule_result :=
  if negb (py_in type [VStr "and"; VStr "or"]) then
    report_value self "Unknown logical operator " type info
  else (Returns true, self, info).

(** [CompareOperator._validate] *)
Definition CompareOperator_validate (self : node) (type : pyval) (info : info_t) : rule_result :=
  if negb (py_in type [VStr ">="; VStr ">"; VStr "<"; VStr "<="; VStr "=";
                       VStr "!="; VStr "is"]) then
    report_value self "Unknown compare operator " type info
  else (Returns true, self, info).

(** [isinstance(n, (Number, Literal, Constant))] *)
Definition is_literal_kind (n : node) : bool :=
  match n with
  | Number _ _ | Literal _ _ | Constant _ _ => true
  | _ => false
  end.

(** [isinstance(n, Regex)] *)
Definition is_Regex (n : node) : bool :=
  match n with Regex _ _ _ => true | _ => false end.

(** [ContainsOperator._validate] *)
Definition ContainsOperator_validate (self right : node) (info : info_t) : rule_result :=
  if negb (is_literal_kind right) then
    (Returns false, self,
     report ("Contains operator must take a literal or constant! Got: "
             +:+ __repr__ right) info)
  else (Returns true, self, info).

(** [MatchOperator._validate]: the message is built with [%] from a format
    that has no conversion, which raises after [setdefault] has run. *)
Definition MatchOperator_validate (self right : node) (info : info_t) : rule_result :=
  if negb (is_Regex right) then
    (Raises format_without_directive, self, setdefault_errors info)
  else (Returns true, self, info).

(** [Regex._validate] *)
Definition Regex_validate (valid : option bool) (value : pyval) (re : option pattern)
    (info : info_t) : rule_result :=
  match value with
  | VStr s =>
      match re_compile s with
      | inl p => (Returns true, Regex valid value (Some p), info)
      | inr e =>
          (Returns false, Regex valid value re,
           record_regex s e (report "Regex compilation failed" info))
      end
  | _ => (Raises format_without_directive, Regex valid value re, setdefault_errors info)
  end.

(** [Number._validate] *)
Definition Number_validate (self : node) (value : pyval) (info : info_t) : rule_result :=
  if negb (is_float value) then
    report_value self "Failed to convert number to float! Got: " value info
  else (Returns true, self, info).

(** [Constant._validate] *)
Definition Constant_validate (self : node) (value : pyval) (info : info_t) : rule_result :=
  if negb (py_in value [VBool true; VBool false; VNone]) then
    report_value self "Invalid Constant! Got: " value info
  else (Returns true, self, info).

(** [self._validate(info)], by the class of [self]; the classes without a
    rule of their own inherit [Node._validate]. *)
Definition _validate (self : node) (info : info_t) : rule_result :=
  match self with
  | LogicalOperator _ t _ _ => LogicalOperator_validate self t info
  | CompareOperator _ t _ _ => CompareOperator_validate self t info
  | ContainsOperator _ _ r => ContainsOperator_validate self r info
  | MatchOperator _ _ r => MatchOperator_validate self r info
  | Regex v x c => Regex_validate v x c info
  | Number _ x => Number_validate self x info
  | Constant _ x => Constant_validate self x info
  | Node _ | NegateOperator _ _ | Literal _ _ | Undefined _ | Empty _ =>
      (Returns true, self, info)
  end.

(** ** [Node.validate] *)
Definition call_result : Type := outcome pyval * node * info_t.

(** [self.valid = self._validate(info)], then the end of the body: the
    call returns [None]. *)
Definition store_rule (self : node) (info : info_t) : call_result :=
  match _validate self info with
  | (Returns b, self', info') => (Returns VNone, set_valid b self', info')
  | (Raises e, self', info') => (Raises e, self', info')
  end.

(** A call on a child, then the rest of the body with the child as the call
    left it; a raise in the child leaves the body at once. *)
Definition then_ (c : call_result) (rebuild : node → node)
    (rest : node → info_t → call_result) : call_result :=
  match c with
  | (Returns _, child, info) => rest child info
  | (Raises e, child, info) => (Raises e, rebuild child, info)
  end.

(** [self.validate(info)]; [info] is [None] when the argument is left out.
    The left operand, then the right one, then the node's own rule. *)
Fixpoint validate (self : node) (info : option info_t) {struct self} : call_result :=
  let info := default empty_info info in
  match self with
  | LogicalOperator v t l r =>
      then_ (validate l (Some info)) (λ l', LogicalOperator v t l' r) (λ l' info,
      then_ (validate r (Some info)) (λ r', LogicalOperator v t l' r') (λ r' info,
      store_rule (LogicalOperator v t l' r') info))
  | CompareOperator v t l r =>
      then_ (validate l (Some info)) (λ l', CompareOperator v t l' r) (λ l' info,
      then_ (validate r (Some info)) (λ r', CompareOperator v t l' r') (λ r' info,
      store_rule (CompareOperator v t l' r') info))
  | ContainsOperator v l r =>
      then_ (validate l (Some info)) (λ l', ContainsOperator v l' r) (λ l' info,
      then_ (validate r (Some info)) (λ r', ContainsOperator v l' r') (λ r' info,
      store_rule (ContainsOperator v l' r') info))
  | MatchOperator v l r =>
      then_ (validate l (Some info)) (λ l', MatchOperator v l' r) (λ l' info,
      then_ (validate r (Some info)) (λ r', MatchOperator v l' r') (λ r' info,
      store_rule (MatchOperator v l' r') info))
  | NegateOperator v l =>
      then_ (validate l (Some info)) (λ l', NegateOperator v l') (λ l' info,
      store_rule (NegateOperator v l') info)
  | Node _ | Regex _ _ _ | Literal _ _ | Number _ _ | Constant _ _
  | Undefined _ | Empty _ => store_rule self info
  end.

(** ** Notions the properties are stated with *)

(** The nodes of a tree, children before their parent and left before
    right. *)
Fixpoint postorder (t : node) : list node :=
  match t with
  | LogicalOperator _ _ l r | CompareOperator _ _ l r
  | ContainsOperator _ l r | MatchOperator _ l r =>
      postorder l ++ postorder r ++ [t]
  | NegateOperator _ l => postorder l ++ [t]
  | _ => [t]
  end.

(** The verdict of a node's own rule. *)
Definition verdict (self : node) : outcome bool := (_validate self empty_info).1.1.

(** The messages a node's own rule appends. *)
Definition own_errors (self : node) : list string :=
  errors_of (_validate self empty_info).2.

(** The rules as the specification lists them: operator types in their
    enumerated sets of strings, the right operand of [contains] a number,
    literal or constant, the right operand of [matches] a regex, a regex
    value a string that compiles, a number value a float, a constant value
    one of true, false and null. *)
Definition spec_rule (n : node) : bool :=
  match n with
  | LogicalOperator _ t _ _ =>
      match t with VStr s => bool_decide (s ∈ ["and"; "or"]) | _ => false end
  | CompareOperator _ t _ _ =>
      match t with
      | VStr s => bool_decide (s ∈ [">="; ">"; "<"; "<="; "="; "!="; "is"])
      | _ => false
      end
  | ContainsOperator _ _ r => is_literal_kind r
  | MatchOperator _ _ r => is_Regex r
  | Regex _ x _ =>
      match x with
      | VStr s => match re_compile s with inl _ => true | inr _ => false end
      | _ => false
      end
  | Number _ x => is_float x
  | Constant _ x => match x with VBool _ | VNone => true | _ => false end
  | Node _ | NegateOperator _ _ | Literal _ _ | Undefined _ | Empty _ => true
  end.

(** [valid] holds the verdict of the node's own rule. *)
Definition holds_own_verdict (m : node) : Prop :=
  ∃ b, verdict m = Returns b ∧ get_valid m = Some b.

(** What validation never writes: the tree without [valid] and [re]. *)
Fixpoint skeleton (t : node) : node :=
  match t with
  | Node _ => Node None
  | LogicalOperator _ ty l r => LogicalOperator None ty (skeleton l) (skeleton r)
  | NegateOperator _ l => NegateOperator None (skeleton l)
  | CompareOperator _ ty l r => CompareOperator None ty (skeleton l) (skeleton r)
  | ContainsOperator _ l r => ContainsOperator None (skeleton l) (skeleton r)
  | MatchOperator _ l r => MatchOperator None (skeleton l) (skeleton r)
  | Regex _ x _ => Regex None x None
  | Literal _ x => Literal None x
  | Number _ x => Number None x
  | Constant _ x => Constant None x
  | Undefined _ => Undefined None
  | Empty _ => Empty None
  end.

(** ** [Node.pre]

    A visitor reads the node it is handed and keeps a state of its own (a
    list it appends to, a counter); what it returns is dropped, and it may
    raise.  A visitor that rewrites the tree under the walk is left out. *)
Definition visitor (S : Type) : Type := node → S → outcome pyval * S.

(** [self.pre(func)] *)
Fixpoint pre {S : Type} (self : node) (func : visitor S) (s : S) {struct self}
    : outcome pyval * S :=
  match func self s with
  | (Raises e, s) => (Raises e, s)
  | (Returns _, s) =>
      match self with
      | LogicalOperator _ _ l r | CompareOperator _ _ l r
      | ContainsOperator _ l r | MatchOperator _ l r =>
          match pre l func s with
          | (Raises e, s) => (Raises e, s)
          | (Returns _, s) =>
              match pre r func s with
              | (Raises e, s) => (Raises e, s)
              | (Returns _, s) => (Returns VNone, s)
              end
          end
      | NegateOperator _ l =>
          match pre l func s with
          | (Raises e, s) => (Raises e, s)
          | (Returns _, s) => (Returns VNone, s)
          end
      | _ => (Returns VNone, s)
      end
  end.

(** The nodes of a tree, a parent before its children and left before
    right. *)
Fixpoint preorder (t : node) : list node :=
  match t with
  | LogicalOperator _ _ l r | CompareOperator _ _ l r
  | ContainsOperator _ l r | MatchOperator _ l r =>
      t :: preorder l ++ preorder r
  | NegateOperator _ l => t :: preorder l
  | _ => [t]
  end.

(** Calling a visitor on the nodes of a list in turn, up to the first call
    that raises. *)
Fixpoint visit_all {S : Type} (func : visitor S) (ns : list node) (s : S)
    : outcome pyval * S :=
  match ns with
  | [] => (Returns VNone, s)
  | n :: ns =>
      match func n s with
      | (Raises e, s) => (Raises e, s)
      | (Returns _, s) => visit_all func ns s
      end
  end.

(** ** More notions for the properties *)

(** [info["regex"]], empty when the key is absent. *)
Definition regex_of (info : info_t) : gmap string string := default ∅ (regex info).

(** The pattern of a [Regex] that does not compile, with the compiler's
    message. *)
Definition regex_failure (m : node) : option (string * string) :=
  match m with
  | Regex _ (VStr s) _ =>
      match re_compile s with
      | inr e => Some (s, e)
      | inl _ => None
      end
  | _ => None
  end.

(** What the rule of a node does to [info["regex"]]. *)
Definition regex_step (rx : gmap string string) (m : node) : gmap string string :=
  match regex_failure m with
  | Some (k, e) => <[k:=e]> rx
  | None => rx
  end.

(** A call that started from [info] and had the rules of the nodes [ns] to
    run, in this order: if it has returned, no rule raised and the messages
    of all of them were appended; if it has raised, it raised what the rule
    of the first node whose rule raises does, and the messages of the nodes
    before that one were appended. *)
Definition collects (ns : list node) (info : info_t) (c : outcome pyval * node * info_t)
    : Prop :=
  match c.1.1 with
  | Returns _ =>
      Forall (λ m, returned (verdict m) = true) ns
      ∧ errors_of c.2 = errors_of info ++ concat (own_errors <$> ns)
  | Raises e =>
      ∃ before m after,
        ns = before ++ m :: after
        ∧ Forall (λ m, returned (verdict m) = true) before
        ∧ verdict m = Raises e
        ∧ errors_of c.2 = errors_of info ++ concat (own_errors <$> before)
  end.




End Ast.

(** ** A runtime to run the model on

    Floats are the integral ones, written in decimal digits, strings are
    quoted without escapes, and the regex compiler only checks that a
    character class that opens is closed. *)
Fixpoint digits (s : string) (acc : Z) : option Z :=
  match s with
  | EmptyString => Some acc
  | String c s' =>
      let d := Z.of_N (Ascii.N_of_ascii c) - 48 in
      if (0 <=? d) && (d <=? 9) then digits s' (10 * acc + d) else None
  end.

Definition demo_float_of_str (s : string) : option Z :=
  match s with
  | EmptyString => None
  | _ => digits s 0
  end.

Fixpoint class_left_open (s : string) (inside : bool) : bool :=
  match s with
  | EmptyString => inside
  | String c s' =>
      if Ascii.eqb c "["%char then class_left_open s' true
      else if Ascii.eqb c "]"%char then class_left_open s' false
      else class_left_open s' inside
  end.

Definition demo_re_compile (s : string) : string + string :=
  if class_left_open s false
  then inr "error('unexpected end of regular expression',)"
  else inl s.

Definition demo_runtime : PyRuntime := {|
  pyfloat := Z;
  float_of_int := Some;
  float_of_str := demo_float_of_str;
  float_eqb := Z.eqb;
  float_eq_int := Z.eqb;
  float_str := λ z, pretty z +:+ ".0";
  float_repr := λ z, pretty z +:+ ".0";
  int_repr := pretty;
  str_repr := λ s, "'" +:+ s +:+ "'";
  pattern := string;
  re_compile := demo_re_compile
|}.

(** * Properties *)

Section Properties.
Context {RT : PyRuntime}.

Implicit Types (t self l r m : node) (info : info_t) (oi : option info_t).

#[local] Arguments py_in : simpl never.
#[local] Arguments store_rule : simpl never.

(** ** The [info] dictionary *)

Lemma errors_of_setdefault info : errors_of (setdefault_errors info) = errors_of info.
Proof. by destruct info as [[errs|] rx]. Qed.

Lemma errors_of_report msg info : errors_of (report msg info) = errors_of info ++ [msg].
Proof. done. Qed.

Lemma errors_of_record_regex k v info : errors_of (record_regex k v info) = errors_of info.
Proof. done. Qed.

(** ** One rule *)

(** Running a rule: a case analysis on its tests, each remembered so that a
    second run of the same rule takes the same branches. *)
Ltac unfold_rules :=
  unfold _validate, LogicalOperator_validate, CompareOperator_validate,
    ContainsOperator_validate, MatchOperator_validate, Regex_validate,
    Number_validate, Constant_validate, report_value.

Ltac replay_tests :=
  repeat match goal with
  | E : ?x = _ |- context [?x] => rewrite E; simpl
  end.

Ltac rule_cases :=
  unfold_rules;
  repeat match goal with
  | E : ?x = _ |- context [?x] => rewrite E; simpl
  | |- context [if negb ?b then _ else _] => destruct b eqn:?; simpl
  | |- context [match re_compile ?s with _ => _ end] =>
      destruct (re_compile s) eqn:?; simpl
  | |- context [match format_s ?x with _ => _ end] =>
      destruct (format_s x) eqn:?; simpl
  | |- context [match ?x with VNone => _ | _ => _ end] => destruct x; simpl
  end.

(** The verdict does not depend on the dictionary. *)
Lemma _validate_verdict self info : (_validate self info).1.1 = verdict self.
Proof. unfold verdict. destruct self; rule_cases; done. Qed.

(** A rule only appends to the messages, and what it appends does not depend
    on the dictionary. *)
Lemma _validate_errors self info :
  errors_of (_validate self info).2 = errors_of info ++ own_errors self.
Proof.
  unfold own_errors. destruct self; rule_cases;
    rewrite ?errors_of_record_regex, ?errors_of_report, ?errors_of_setdefault,
      ?app_nil_r; done.
Qed.

(** A rule writes nothing but [re]. *)
Lemma rule_keeps_skeleton self info : skeleton (_validate self info).1.2 = skeleton self.
Proof. destruct self; rule_cases; done. Qed.

Lemma _validate_children self info :
  get_left (_validate self info).1.2 = get_left self
  ∧ get_right (_validate self info).1.2 = get_right self.
Proof. destruct self; rule_cases; done. Qed.

Lemma _validate_valid self info : get_valid (_validate self info).1.2 = get_valid self.
Proof. destruct self; rule_cases; done. Qed.

(** ** Storing the verdict *)

Lemma postorder_unfold t :
  postorder t =
    from_option postorder [] (get_left t) ++
    from_option postorder [] (get_right t) ++ [t].
Proof. destruct t; simpl; rewrite ?app_nil_r; done. Qed.

(** What [self.valid = self._validate(info)] leaves behind. *)
Lemma store_rule_inv self info o t' i' :
  store_rule self info = (o, t', i') →
  o = match verdict self with Returns _ => Returns VNone | Raises e => Raises e end
  ∧ skeleton t' = skeleton self
  ∧ get_left t' = get_left self ∧ get_right t' = get_right self
  ∧ verdict t' = verdict self ∧ own_errors t' = own_errors self
  ∧ errors_of i' = errors_of info ++ own_errors self
  ∧ get_valid t' = match verdict self with
                   | Returns b => Some b
                   | Raises _ => get_valid self
                   end.
Proof.
  unfold store_rule, verdict, own_errors.
  destruct self; rule_cases; intros [= <- <- <-]; simpl;
    rewrite ?errors_of_record_regex, ?errors_of_report, ?errors_of_setdefault,
      ?app_nil_r; unfold_rules; replay_tests; done.
Qed.

Lemma store_rule_returns self info ret t' i' :
  store_rule self info = (Returns ret, t', i') →
  ret = VNone
  ∧ skeleton t' = skeleton self
  ∧ get_left t' = get_left self ∧ get_right t' = get_right self
  ∧ holds_own_verdict t'
  ∧ errors_of i' = errors_of info ++ own_errors t'.
Proof.
  intros (Ho & Hsk & Hl & Hr & Hv & Hown & Herr & Hvalid)%store_rule_inv.
  unfold holds_own_verdict. rewrite Hv, Hown.
  destruct (verdict self) as [b|e]; [|done].
  injection Ho as ->. eauto 10.
Qed.

(** ** The walk *)

Lemma then__returns (c : call_result) rebuild rest ret t' i' :
  then_ c rebuild rest = (Returns ret, t', i') →
  ∃ x child i1, c = (Returns x, child, i1) ∧ rest child i1 = (Returns ret, t', i').
Proof. destruct c as [[[x|e] child] i1]; simpl; [eauto 10 | done]. Qed.

(** Takes a returning call on a node apart: the calls on the children, with
    what the induction hypotheses say of them, then the rule of the node. *)
Ltac walk H :=
  simpl in H;
  repeat match type of H with
  | then_ (validate ?c ?i) _ _ = _ =>
      let x := fresh "x" in let c' := fresh c "'" in
      let i1 := fresh "i" in let Hc := fresh "H" c in
      apply then__returns in H as (x & c' & i1 & Hc & H)
  end.

(** When the call returns: it returns [None], it wrote nothing but [valid]
    and [re], every node holds the verdict of its own rule, and the messages
    are those of the nodes' rules in post-order, after the ones that were
    there. *)
Lemma validate_returns_inv t : ∀ oi ret t' i',
  validate t oi = (Returns ret, t', i') →
  ret = VNone
  ∧ skeleton t' = skeleton t
  ∧ Forall holds_own_verdict (postorder t')
  ∧ errors_of i' =
      errors_of (default empty_info oi) ++ concat (own_errors <$> postorder t').
Proof.
  induction t as [v|v ty l IHl r IHr|v l IHl|v ty l IHl r IHr|v l IHl r IHr
                 |v l IHl r IHr|v x c|v x|v x|v x|v|v];
    intros oi r0 t' i' H; walk H;
    apply store_rule_returns in H as (-> & Hsk & Hleft & Hright & Hv & Herr);
    repeat match goal with
    | IH : ∀ oi ret t' i', validate ?c oi = _ → _, Hc : validate ?c _ = _ |- _ =>
        apply IH in Hc as (_ & ? & ? & ?); clear IH
    end;
    rewrite (postorder_unfold t'), Hleft, Hright; simpl in *;
    rewrite ?fmap_app, ?concat_app, ?Forall_app; simpl;
    rewrite ?app_nil_r; simplify_eq/=;
    (split; [done|]); (split; [congruence|]);
    (split; [rewrite ?Forall_singleton; by repeat split|]);
    rewrite Herr;
    repeat match goal with E : errors_of _ = _ |- _ => rewrite E; clear E end;
    by rewrite <-?(assoc_L (++)).
Qed.

(** ** Trees that obey the rules *)

Lemma is_literal_kind_skeleton m : is_literal_kind (skeleton m) = is_literal_kind m.
Proof. by destruct m. Qed.

Lemma is_Regex_skeleton m : is_Regex (skeleton m) = is_Regex m.
Proof. by destruct m. Qed.

(** The checks on the right operand look at its class only. *)
Lemma skeleton_same_class m m' :
  skeleton m' = skeleton m →
  is_literal_kind m' = is_literal_kind m ∧ is_Regex m' = is_Regex m.
Proof.
  intros E. by rewrite <-(is_literal_kind_skeleton m'), <-(is_Regex_skeleton m'),
    E, is_literal_kind_skeleton, is_Regex_skeleton.
Qed.

(** On a node that obeys its rule as the specification words it, the rule
    passes and leaves the dictionary alone. *)
Lemma store_rule_obeying self info :
  spec_rule self = true →
  ∃ t', store_rule self info = (Returns VNone, t', info)
    ∧ get_valid t' = Some true
    ∧ get_left t' = get_left self ∧ get_right t' = get_right self
    ∧ skeleton t' = skeleton self.
Proof.
  unfold store_rule.
  destruct self as [v|v ty l r|v l|v ty l r|v l r|v l r|v x c|v x|v x|v x|v|v];
    simpl; intros H; unfold_rules;
    try (destruct ty; try done; apply bool_decide_eq_true in H;
         set_unfold in H; destruct_or!; subst);
    try (destruct x as [|[]| | | |]; try done);
    try (destruct (re_compile _); try done);
    try rewrite H; simpl; eauto 10.
Qed.

Lemma validate_obeying t : ∀ oi,
  Forall (λ m, spec_rule m = true) (postorder t) →
  ∃ t', validate t oi = (Returns VNone, t', default empty_info oi)
    ∧ skeleton t' = skeleton t
    ∧ Forall (λ m, get_valid m = Some true) (postorder t').
Proof.
  induction t as [v|v ty l IHl r IHr|v l IHl|v ty l IHl r IHr|v l IHl r IHr
                 |v l IHl r IHr|v x c|v x|v x|v x|v|v];
    intros oi; simpl; rewrite ?Forall_app, ?Forall_singleton; intros Hall.
  all: try (destruct Hall as (Hl & Hr & Hself);
    destruct (IHl (Some (default empty_info oi)) Hl) as (l' & -> & Hskl & Hvl);
    simpl;
    destruct (IHr (Some (default empty_info oi)) Hr) as (r' & -> & Hskr & Hvr);
    simpl;
    destruct (skeleton_same_class r r' Hskr) as [Hlit Hre]).
  all: try (destruct Hall as (Hl & Hself);
    destruct (IHl (Some (default empty_info oi)) Hl) as (l' & -> & Hskl & Hvl);
    simpl).
  all: match goal with
       | |- ∃ t', store_rule ?n ?i = _ ∧ _ =>
           destruct (store_rule_obeying n i) as (t' & -> & Hv & Hleft & Hright & Hsk);
           [simpl in *; congruence|]
       end.
  all: exists t'; split; [done|]; split; [simpl in *; congruence|].
  all: rewrite (postorder_unfold t'), Hleft, Hright; simpl;
    rewrite ?Forall_app, ?Forall_singleton; by repeat split.
Qed.

(** ** The validation pass *)

(** C1. On a tree none of whose nodes breaks a rule of the specification
    (operator types in their enumerated sets of strings, the right operand of
    [contains] a number, literal or constant, that of [matches] a regex,
    regex values strings that compile, number values floats, constant values
    among true, false and null), and starting from a dictionary that records
    no error ([None], [{}], or one with an empty list), [validate] returns,
    the dictionary still records no error, the tree is the one it was given
    up to [valid] and [re], and [valid] is true on every node. *)
Theorem validate_well_formed t oi :
  errors_of (default empty_info oi) = [] →
  Forall (λ m, spec_rule m = true) (postorder t) →
  ∃ t' i', validate t oi = (Returns VNone, t', i')
    ∧ errors_of i' = []
    ∧ skeleton t' = skeleton t
    ∧ Forall (λ m, get_valid m = Some true) (postorder t').
Proof.
  intros Hfresh Hrules.
  destruct (validate_obeying t oi Hrules) as (t' & Hrun & Hsk & Hvalid).
  exists t', (default empty_info oi). by rewrite Hrun.
Qed.

(** C4. After [validate] has returned, the [valid] field of every node of
    the tree holds the verdict of that node's own rule: nothing of the
    children's verdicts enters it, so a node whose own rule passes has
    [valid] true whatever [valid] is on its children. *)
Theorem valid_is_own_verdict t oi ret t' i' :
  validate t oi = (Returns ret, t', i') →
  skeleton t' = skeleton t
  ∧ Forall holds_own_verdict (postorder t')
  ∧ ∀ m, m ∈ postorder t' → verdict m = Returns true → get_valid m = Some true.
Proof.
  intros (_ & Hsk & Hall & _)%validate_returns_inv.
  split; [done|]. split; [done|].
  intros m Hm Hpass. rewrite Forall_forall in Hall.
  destruct (Hall m Hm) as (b & Hb & Hv). congruence.
Qed.

(** C5, amended.  When [validate] returns, the verdict of the node's own
    rule is what it has stored in the node's [valid] field. *)
Theorem validate_stores_verdict self oi ret self' i' :
  validate self oi = (Returns ret, self', i') →
  ∃ b, verdict self' = Returns b ∧ get_valid self' = Some b.
Proof.
  intros (_ & _ & Hall & _)%validate_returns_inv.
  rewrite postorder_unfold, !Forall_app, Forall_singleton in Hall.
  by destruct Hall as (_ & _ & Hroot).
Qed.

(** ** Single classes *)

(** C6. On a [Regex] whose value is a string: when the string does not
    compile, the rule appends "Regex compilation failed" to the messages,
    stores the compiler's message under the pattern in [info["regex"]] and
    returns false, so that [validate] leaves [valid] false; when it compiles,
    the rule stores the compiled pattern in the node's [re], writes nothing
    to the dictionary and returns true, so that [validate] leaves [valid]
    true. *)
Theorem Regex_validate_compile v s c info :
  (∀ msg, re_compile s = inr msg →
     let info' := record_regex s msg (report "Regex compilation failed" info) in
     _validate (Regex v (VStr s) c) info = (Returns false, Regex v (VStr s) c, info')
     ∧ errors_of info' = errors_of info ++ ["Regex compilation failed"]
     ∧ (∃ rx, regex info' = Some rx ∧ rx !! s = Some msg)
     ∧ validate (Regex v (VStr s) c) (Some info)
       = (Returns VNone, Regex (Some false) (VStr s) c, info'))
  ∧ (∀ p, re_compile s = inl p →
     _validate (Regex v (VStr s) c) info = (Returns true, Regex v (VStr s) (Some p), info)
     ∧ validate (Regex v (VStr s) c) (Some info)
       = (Returns VNone, Regex (Some true) (VStr s) (Some p), info)).
Proof.
  split.
  - intros msg E. cbn. unfold store_rule. cbn. unfold Regex_validate. rewrite E.
    split_and!; try done.
    eexists. split; [done|]. apply lookup_insert_eq.
  - intros p E. cbn. unfold store_rule. cbn. unfold Regex_validate. by rewrite E.
Qed.

(** C7, where the code departs from it.  [Number(value)] never fails: it
    stores [float(value)] when [float] succeeds and [value] itself when it
    raises.  The rule of a [Number] returns true when the stored value is a
    float, and leaves the dictionary alone then.  Otherwise it builds its
    message with ["...%s" % self.value]: where that gives a text, the rule
    appends the message and returns false (so when [float("abc")] raises,
    [Number("abc")] holds ["abc"] and the message ends in [abc]); where it
    raises, as on the tuple [(1, 2)], which [float] refuses and [Number]
    keeps, the rule raises [TypeError] and appends nothing, and [validate]
    lets the exception through. *)
Theorem Number_coerce_then_judge :
  (∀ value,
     Number_init value =
       Returns (Number None (from_option VFloat value (py_float value))))
  ∧ (∀ v x info,
       is_float x = true →
       _validate (Number v x) info = (Returns true, Number v x, info))
  ∧ (∀ v x info text,
       is_float x = false → format_s x = Returns text →
       _validate (Number v x) info =
         (Returns false, Number v x,
          report ("Failed to convert number to float! Got: " +:+ text) info))
  ∧ (∀ v x info e,
       is_float x = false → format_s x = Raises e →
       _validate (Number v x) info = (Raises e, Number v x, setdefault_errors info))
  ∧ (let pair := VTuple [VInt 1; VInt 2] in
     Number_init pair = Returns (Number None pair)
     ∧ validate (Number None pair) None
       = (Raises format_without_directive, Number None pair, Info (Some []) None))
  ∧ (float_of_str "abc" = None →
       Number_init (VStr "abc") = Returns (Number None (VStr "abc"))
       ∧ ∀ v info, _validate (Number v (VStr "abc")) info =
           (Returns false, Number v (VStr "abc"),
            report "Failed to convert number to float! Got: abc" info)).
Proof.
  split_and!; try done.
  - intros value. unfold Number_init. by destruct (py_float value).
  - intros v x info E. cbn. unfold Number_validate. by rewrite E.
  - intros v x info text E F. cbn. unfold Number_validate, report_value.
    by rewrite E, F.
  - intros v x info e E F. cbn. unfold Number_validate, report_value.
    by rewrite E, F.
  - intros E. unfold Number_init. cbn. by rewrite E.
Qed.

(** C8, where the code departs from it.  The rule of a [Constant] passes
    exactly when the value is [in (True, False, None)], which Python decides
    with [==]: the integers 1 and 0 equal [True] and [False], so
    [Constant(1)] and [Constant(0)] pass, with no message.  A string does
    not pass, and the message names it. *)
Theorem Constant_accepts_one_and_zero :
  (∀ v x info,
     (_validate (Constant v x) info).1.1
       = if py_in x [VBool true; VBool false; VNone] then Returns true
         else match format_s x with
              | Returns _ => Returns false
              | Raises e => Raises e
              end)
  ∧ (∀ v info,
       _validate (Constant v (VInt 1)) info = (Returns true, Constant v (VInt 1), info)
       ∧ _validate (Constant v (VInt 0)) info = (Returns true, Constant v (VInt 0), info))
  ∧ validate (Constant None (VInt 1)) None
      = (Returns VNone, Constant (Some true) (VInt 1), empty_info)
  ∧ (∀ v s info,
       _validate (Constant v (VStr s)) info =
         (Returns false, Constant v (VStr s),
          report ("Invalid Constant! Got: " +:+ s) info)).
Proof.
  split_and!; try done.
  intros v x info. cbn. unfold Constant_validate, report_value.
  destruct (py_in x _); [done|]. by destruct (format_s x).
Qed.

(** C2, where the code departs from it.  Two rules build their message
    with [%] from a format that has no conversion: on a [MatchOperator]
    whose right operand is no [Regex], and on a [Regex] whose value is no
    string, the rule raises [TypeError] after [setdefault] has made the
    ["errors"] list, and appends nothing to it.  [validate] lets the
    exception through. *)
Theorem validate_raises_TypeError :
  (∀ v l r info,
     is_Regex r = false →
     _validate (MatchOperator v l r) info =
       (Raises format_without_directive, MatchOperator v l r, setdefault_errors info))
  ∧ (∀ v x c info,
       (∀ s, x ≠ VStr s) →
       _validate (Regex v x c) info =
         (Raises format_without_directive, Regex v x c, setdefault_errors info))
  ∧ validate (MatchOperator None (Literal None (VStr "x")) (Literal None (VStr "y"))) None
      = (Raises format_without_directive,
         MatchOperator None (Literal (Some true) (VStr "x")) (Literal (Some true) (VStr "y")),
         Info (Some []) None)
  ∧ validate (Regex None (VInt 5) None) None
      = (Raises format_without_directive, Regex None (VInt 5) None, Info (Some []) None).
Proof.
  split_and!; try done.
  - intros v l r info E. cbn. unfold MatchOperator_validate. by rewrite E.
  - intros v x c info Hx. cbn. unfold Regex_validate.
    destruct x; try done. by destruct (Hx s).
Qed.

(** C3, where the code departs from it.  The walk is post-order, but a rule
    that raises ends it: in [and(matches(x, y), Constant("maybe"))] the left
    operand raises, so the right operand is never visited (it still has no
    [valid]) and the message its rule would append is not collected. *)
Theorem validate_stops_at_raise :
  let unvisited := Constant None (VStr "maybe") in
  validate
    (LogicalOperator None (VStr "and")
       (MatchOperator None (Literal None (VStr "x")) (Literal None (VStr "y")))
       unvisited) None
  = (Raises format_without_directive,
     LogicalOperator None (VStr "and")
       (MatchOperator None (Literal (Some true) (VStr "x")) (Literal (Some true) (VStr "y")))
       unvisited,
     Info (Some []) None)
  ∧ own_errors unvisited = ["Invalid Constant! Got: maybe"].
Proof. done. Qed.

(** ** Construction *)

(** C9, as the code has it.  Every constructor but [Regex]'s returns a node
    whatever it is given; [Number] keeps a value that [float] refuses.
    [Regex] returns a node for every payload, and for every node that has a
    [value], which it takes as its own. *)
Theorem construction_total :
  (∃ n, Node_init = Returns n)
  ∧ (∀ op l r, ∃ n, LogicalOperator_init op l r = Returns n)
  ∧ (∀ l, ∃ n, NegateOperator_init l = Returns n)
  ∧ (∀ op l r, ∃ n, CompareOperator_init op l r = Returns n)
  ∧ (∀ l r, ∃ n, ContainsOperator_init l r = Returns n)
  ∧ (∀ l r, ∃ n, MatchOperator_init l r = Returns n)
  ∧ (∀ x, ∃ n, Literal_init x = Returns n)
  ∧ (∀ x, ∃ n, Number_init x = Returns n
            ∧ (py_float x = None → get_value n = Some x))
  ∧ (∀ x, ∃ n, Constant_init x = Returns n)
  ∧ (∃ n, Undefined_init = Returns n)
  ∧ (∃ n, Empty_init = Returns n)
  ∧ (∀ x, Regex_init (AVal x) = Returns (Regex None x None))
  ∧ (∀ m x, get_value m = Some x →
            Regex_init (ANode m) = Returns (Regex None x None)).
Proof.
  split_and!; try by eexists.
  - intros x. unfold Number_init.
    destruct (py_float x); eexists; (split; [done|]); done.
  - intros m x E. cbn. by rewrite E.
Qed.

(** C10, where the code departs from it.  Only [Node.__init__] writes
    [valid = False], and no subclass calls it: a new node of any of the
    eleven classes has no [valid] at all. *)
Theorem fresh_nodes_lack_valid :
  Node_init = Returns (Node (Some false))
  ∧ (∀ op l r, ∃ n, LogicalOperator_init op l r = Returns n ∧ get_valid n = None)
  ∧ (∀ l, ∃ n, NegateOperator_init l = Returns n ∧ get_valid n = None)
  ∧ (∀ op l r, ∃ n, CompareOperator_init op l r = Returns n ∧ get_valid n = None)
  ∧ (∀ l r, ∃ n, ContainsOperator_init l r = Returns n ∧ get_valid n = None)
  ∧ (∀ l r, ∃ n, MatchOperator_init l r = Returns n ∧ get_valid n = None)
  ∧ (∀ x, ∃ n, Regex_init (AVal x) = Returns n ∧ get_valid n = None)
  ∧ (∀ x, ∃ n, Literal_init x = Returns n ∧ get_valid n = None)
  ∧ (∀ x, ∃ n, Number_init x = Returns n ∧ get_valid n = None)
  ∧ (∀ x, ∃ n, Constant_init x = Returns n ∧ get_valid n = None)
  ∧ (∃ n, Undefined_init = Returns n ∧ get_valid n = None)
  ∧ (∃ n, Empty_init = Returns n ∧ get_valid n = None).
Proof.
  split_and!; try by eexists.
  intros x. unfold Number_init. destruct (py_float x); by eexists.
Qed.

(** ** What the pass never does, and when it returns *)

Lemma then__skeleton (c : call_result) rebuild rest (sk : node) :
  (∀ info, skeleton (rest c.1.2 info).1.2 = sk) →
  skeleton (rebuild c.1.2) = sk →
  skeleton (then_ c rebuild rest).1.2 = sk.
Proof. destruct c as [[[x|e] child] i1]; simpl; auto. Qed.

Lemma validate_keeps_skeleton t : ∀ oi, skeleton (validate t oi).1.2 = skeleton t.
Proof.
  assert (Hstore : ∀ self info, skeleton (store_rule self info).1.2 = skeleton self).
  { intros self info. destruct (store_rule self info) as [[o t'] i'] eqn:E.
    by apply store_rule_inv in E as (_ & Hsk & _). }
  induction t as [v|v ty l IHl r IHr|v l IHl|v ty l IHl r IHr|v l IHl r IHr
                 |v l IHl r IHr|v x c|v x|v x|v x|v|v];
    intros oi; simpl; try apply Hstore;
    repeat (apply then__skeleton; [intros ?|]);
    rewrite ?Hstore; simpl; by rewrite ?IHl, ?IHr.
Qed.

(** Whether it returns or raises, [validate] writes nothing but [valid] and
    [re]: the classes, the operator types, the values and the shape of the
    tree are the ones it was given. *)
Theorem validate_skeleton t oi : skeleton (validate t oi).1.2 = skeleton t.
Proof. apply validate_keeps_skeleton. Qed.

(** The verdict of a rule reads the node's own attributes and the class of
    its right operand, none of which validation writes. *)
Lemma verdict_skeleton m m' : skeleton m' = skeleton m → verdict m' = verdict m.
Proof.
  unfold verdict.
  destruct m, m'; simpl; intros [= ]; subst; try done; unfold_rules;
    match goal with
    | H : skeleton ?a = skeleton ?b |- context [is_literal_kind ?a] =>
        rewrite (proj1 (skeleton_same_class b a H)); by destruct (is_literal_kind b)
    | H : skeleton ?a = skeleton ?b |- context [is_Regex ?a] =>
        rewrite (proj2 (skeleton_same_class b a H)); by destruct (is_Regex b)
    | _ => rule_cases; done
    end.
Qed.





(** When [validate] returns, the messages it has appended are those of the
    rules of the nodes, in post-order, each verdict is stored in its node,
    and the tree is otherwise unchanged. *)
Theorem errors_collected_in_postorder t oi ret t' i' :
  validate t oi = (Returns ret, t', i') →
  skeleton t' = skeleton t
  ∧ errors_of i' =
      errors_of (default empty_info oi) ++ concat (own_errors <$> postorder t').
Proof. by intros (_ & ? & _ & ?)%validate_returns_inv. Qed.

(** ** Validating again *)

(** A second [validate] on the tree that a first one has left, from the same
    dictionary, ends as the first did, with the same messages, and changes
    nothing in the tree. *)
Theorem validate_again t : ∀ oi, validate (validate t oi).1.2 oi = validate t oi.
Proof.
  induction t as [v|v ty l IHl r IHr|v l IHl|v ty l IHl r IHr|v l IHl r IHr
                 |v l IHl r IHr|v x c|v x|v x|v x|v|v];
    intros oi; simpl.
  all: try (specialize (IHl (Some (default empty_info oi)));
    destruct (validate l (Some (default empty_info oi))) as [[[x1|e1] l'] i1];
    simpl in *; [|by rewrite IHl]).
  all: try (specialize (IHr (Some i1));
    destruct (validate r (Some i1)) as [[[x2|e2] r'] i2];
    simpl in *; [|by rewrite IHl; simpl; rewrite IHr]).
  all: unfold store_rule; rule_cases; rewrite ?IHl; simpl; rewrite ?IHr; simpl;
    unfold store_rule; rule_cases; done.
Qed.

(** ** The pre-order walk *)

Lemma visit_all_app {S : Type} (func : visitor S) ns1 ns2 (s : S) :
  visit_all func (ns1 ++ ns2) s =
    match visit_all func ns1 s with
    | (Raises e, s') => (Raises e, s')
    | (Returns _, s') => visit_all func ns2 s'
    end.
Proof.
  revert s. induction ns1 as [|n ns1 IH]; intros s; simpl; [done|].
  destruct (func n s) as [[x|e] s']; [apply IH|done].
Qed.

Lemma visit_all_returns_None {S : Type} (func : visitor S) ns (s s' : S) x :
  visit_all func ns s = (Returns x, s') → x = VNone.
Proof.
  revert s. induction ns as [|n ns IH]; intros s; simpl; [congruence|].
  destruct (func n s) as [[y|e] s1]; [apply IH|done].
Qed.

Lemma visit_all_quiet {S : Type} (func : visitor S) ns (s : S) :
  (∀ n s, returned (func n s).1 = true) →
  visit_all func ns s = (Returns VNone, foldl (λ s n, (func n s).2) s ns).
Proof.
  intros Hquiet. revert s. induction ns as [|n ns IH]; intros s; simpl; [done|].
  specialize (Hquiet n s). destruct (func n s) as [[y|e] s1]; [apply IH|done].
Qed.

Lemma pre_is_visit_all {S : Type} t : ∀ (func : visitor S) (s : S),
  pre t func s = visit_all func (preorder t) s.
Proof.
  induction t as [v|v ty l IHl r IHr|v l IHl|v ty l IHl r IHr|v l IHl r IHr
                 |v l IHl r IHr|v x c|v x|v x|v x|v|v];
    intros func s; simpl; destruct (func _ s) as [[y|e] s1]; try done;
    rewrite ?visit_all_app, ?IHl;
    repeat match goal with
    | |- context [visit_all ?f ?ns ?s] =>
        let E := fresh "E" in
        destruct (visit_all f ns s) as [[?|?] ?] eqn:E; try done;
        apply visit_all_returns_None in E as ->; try rewrite IHr
    end; done.
Qed.

(** [pre] calls the visitor on the nodes of the tree in pre-order, a node
    before its operands and the left operand before the right one, and
    stops at the first call that raises, letting the exception through with
    the visitor's state as that call left it.  With a visitor that never
    raises, every node is visited once and [pre] returns [None]. *)
Theorem pre_visits_preorder {S : Type} t (func : visitor S) (s : S) :
  pre t func s = visit_all func (preorder t) s
  ∧ ((∀ n s, returned (func n s).1 = true) →
     pre t func s = (Returns VNone, foldl (λ s n, (func n s).2) s (preorder t))).
Proof.
  split; [apply pre_is_visit_all|].
  intros Hquiet. rewrite pre_is_visit_all. by apply visit_all_quiet.
Qed.


(** ** The rules against the specification's table *)




(** ** Construction followed by validation *)

(** A [Number] passes its rule exactly when [float] accepted the value it
    was built from.  When [float] refused it, the node holds the value as
    given and the rule builds its message from it with [%s]: it fails with
    that one message, or, where the [%] raises (the value is a tuple of no
    item or of two items or more), it raises and appends nothing. *)
Theorem Number_valid_iff_coerced value :
  ∃ n, Number_init value = Returns n
    ∧ (verdict n = Returns true ↔ is_Some (py_float value))
    ∧ match py_float value with
      | Some f => get_value n = Some (VFloat f)
                  ∧ verdict n = Returns true ∧ own_errors n = []
      | None =>
          get_value n = Some value
          ∧ match format_s value with
            | Returns text =>
                verdict n = Returns false
                ∧ own_errors n =
                    ["Failed to convert number to float! Got: " +:+ text]
            | Raises e => verdict n = Raises e ∧ own_errors n = []
            end
      end.
Proof.
  unfold Number_init. destruct (py_float value) eqn:E; eexists; (split; [done|]).
  - split; [|done]. split; [by eexists|done].
  - assert (Hnf : is_float value = false) by by destruct value.
    unfold verdict, own_errors. cbn. unfold Number_validate, report_value.
    rewrite Hnf. simpl. split; [|split; [done|]].
    + split; [|by intros [? ?]]. by destruct (format_s value).
    + by destruct (format_s value).
Qed.

(** Wrapping a [Regex] in a [Regex] gives the same [Regex] as a new one,
    and wrapping a node that has a value gives what the value itself
    gives. *)
Theorem Regex_rewrap :
  (∀ a n, Regex_init a = Returns n → Regex_init (ANode n) = Returns n)
  ∧ (∀ m x, get_value m = Some x → Regex_init (ANode m) = Regex_init (AVal x)).
Proof.
  split.
  - intros [x|m] n; simpl; [by intros [= <-]|].
    destruct (get_value m); by intros [= <-].
  - intros m x E. simpl. by rewrite E.
Qed.

(** ** [__repr__] *)



Lemma class_name_skeleton m : class_name (skeleton m) = class_name m.
Proof. by destruct m. Qed.

Lemma repr_skeleton m : __repr__ (skeleton m) = __repr__ m.
Proof. destruct m; unfold __repr__; simpl; by rewrite ?class_name_skeleton. Qed.


(** ** Messages read the skeleton only *)

Lemma own_errors_skeleton m : own_errors (skeleton m) = own_errors m.
Proof.
  unfold own_errors.
  destruct m; simpl; try done; unfold_rules;
    rewrite ?is_literal_kind_skeleton, ?is_Regex_skeleton, ?repr_skeleton;
    rule_cases; done.
Qed.

(** ** Messages and verdicts *)

(** A rule appends one message when it returns false, and none when it
    returns true or raises. *)
Lemma own_errors_verdict m :
  length (own_errors m)
  = match verdict m with Returns false => 1%nat | _ => 0%nat end.
Proof. unfold own_errors, verdict. destruct m; rule_cases; done. Qed.

Lemma errors_count ns :
  Forall holds_own_verdict ns →
  length (concat (own_errors <$> ns))
  = length (filter (λ m, get_valid m = Some false) ns)
  ∧ (concat (own_errors <$> ns) = [] ↔ Forall (λ m, get_valid m = Some true) ns).
Proof.
  induction 1 as [|m ns (b & Hb & Hv) Hns [IHlen IHnil]]; [done|].
  rewrite fmap_cons, concat_cons, length_app, filter_cons, own_errors_verdict,
    Hb, Forall_cons, Hv.
  split.
  - destruct b; case_decide; simplify_eq/=; by rewrite IHlen.
  - rewrite <-IHnil. pose proof (own_errors_verdict m) as Hlen. rewrite Hb in Hlen.
    destruct b, (own_errors m); simplify_eq/=;
      (split; [intros ?|intros [? ?]]); by simplify_eq.
Qed.

(** When [validate] returns, it has appended as many messages as there are
    nodes it has left with [valid] false.  From a dictionary that held no
    message, the list of messages is empty exactly when [valid] is true on
    every node. *)
Theorem errors_empty_iff_all_valid t oi ret t' i' :
  validate t oi = (Returns ret, t', i') →
  length (errors_of i')
  = (length (errors_of (default empty_info oi))
     + length (filter (λ m, get_valid m = Some false) (postorder t')))%nat
  ∧ (errors_of (default empty_info oi) = [] →
     (errors_of i' = [] ↔ Forall (λ m, get_valid m = Some true) (postorder t'))).
Proof.
  intros (_ & _ & Hall & ->)%validate_returns_inv.
  destruct (errors_count _ Hall) as [Hlen Hnil].
  split; [by rewrite length_app, Hlen|].
  by intros ->.
Qed.

(** ** The dictionary of regex failures *)

Lemma regex_failure_inv m k e :
  regex_failure m = Some (k, e)
  ↔ ∃ v c, m = Regex v (VStr k) c ∧ re_compile k = inr e.
Proof.
  split.
  - destruct m as [| | | | | |v x c| | | | |]; try done.
    destruct x; try done. simpl.
    destruct (re_compile s) eqn:E; intros [= <- <-]; eauto.
  - intros (v & c & -> & E). simpl. by rewrite E.
Qed.

Lemma store_rule_regex self info :
  regex_of (store_rule self info).2 = regex_step (regex_of info) self.
Proof.
  unfold store_rule, regex_step. destruct self; simpl; try done; rule_cases;
    try done; by destruct info as [[errs|] rx].
Qed.

Lemma regex_step_None rx m : regex_failure m = None → regex_step rx m = rx.
Proof. unfold regex_step. by intros ->. Qed.

Lemma validate_regex_inv t : ∀ oi ret t' i',
  validate t oi = (Returns ret, t', i') →
  regex_of i' = foldl regex_step (regex_of (default empty_info oi)) (postorder t).
Proof.
  induction t as [v|v ty l IHl r IHr|v l IHl|v ty l IHl r IHr|v l IHl r IHr
                 |v l IHl r IHr|v x c|v x|v x|v x|v|v];
    intros oi ret t' i' H; walk H;
    repeat match goal with
    | IH : ∀ oi ret t' i', validate ?c oi = _ → _, Hc : validate ?c _ = _ |- _ =>
        apply IH in Hc; clear IH
    end;
    apply (f_equal (λ c : call_result, regex_of c.2)) in H;
    rewrite store_rule_regex in H; simpl in *; rewrite <-H, ?foldl_app;
    simpl; try done; rewrite !regex_step_None by done; congruence.
Qed.

Lemma regex_step_lookup ns : ∀ rx k,
  (∀ e, Some (k, e) ∈ regex_failure <$> ns → foldl regex_step rx ns !! k = Some e)
  ∧ ((∀ e, Some (k, e) ∉ regex_failure <$> ns) → foldl regex_step rx ns !! k = rx !! k).
Proof.
  induction ns as [|m ns IH] using rev_ind; intros rx k.
  { split; [by intros e ?%elem_of_nil|done]. }
  destruct (IH rx k) as [IHin IHout].
  rewrite foldl_app, fmap_app. simpl. unfold regex_step at 1 3.
  destruct (regex_failure m) as [[k' e']|] eqn:E.
  - destruct (decide (k' = k)) as [->|Hne].
    + rewrite lookup_insert_eq. split.
      * intros e [Hin|Hin%list_elem_of_singleton]%elem_of_app; [|congruence].
        apply list_elem_of_fmap in Hin as (m0 & Hm0 & _). symmetry in Hm0.
        apply regex_failure_inv in Hm0 as (_ & _ & _ & E0).
        apply regex_failure_inv in E as (_ & _ & _ & E1). congruence.
      * intros Hout. destruct (Hout e'). apply elem_of_app. right. by left.
    + rewrite lookup_insert_ne by done. split.
      * intros e [Hin|Hin%list_elem_of_singleton]%elem_of_app; [auto|congruence].
      * intros Hout. apply IHout. intros e Hin. apply (Hout e), elem_of_app. by left.
  - split.
    + intros e [Hin|Hin%list_elem_of_singleton]%elem_of_app; [auto|congruence].
    + intros Hout. apply IHout. intros e Hin. apply (Hout e), elem_of_app. by left.
Qed.

(** When [validate] returns, [info["regex"]] holds the compiler's message
    under every pattern of the tree that does not compile, and holds under
    every other key what it held before (nothing, when it was absent). *)
Theorem regex_dictionary t oi ret t' i' :
  validate t oi = (Returns ret, t', i') →
  (∀ v k c e,
     Regex v (VStr k) c ∈ postorder t → re_compile k = inr e →
     regex_of i' !! k = Some e)
  ∧ (∀ k,
       (∀ v c, Regex v (VStr k) c ∈ postorder t → ∃ p, re_compile k = inl p) →
       regex_of i' !! k = regex_of (default empty_info oi) !! k).
Proof.
  intros ->%validate_regex_inv.
  split.
  - intros v k c e Hin E.
    apply (proj1 (regex_step_lookup _ _ k)), list_elem_of_fmap.
    exists (Regex v (VStr k) c). split; [|done]. simpl. by rewrite E.
  - intros k Hcompiles.
    apply (proj2 (regex_step_lookup _ _ k)).
    intros e (m & Hm & Hin)%list_elem_of_fmap. symmetry in Hm.
    apply regex_failure_inv in Hm as (v & c & -> & E).
    destruct (Hcompiles v c Hin) as [p Hp]. congruence.
Qed.

(** ** Messages, whether the walk returns or raises *)

Lemma collects_store self self0 info :
  skeleton self = skeleton self0 →
  collects [self0] info (store_rule self info).
Proof.
  intros Hsk. unfold collects.
  pose proof (verdict_skeleton self0 self Hsk) as Hv.
  assert (Hown : own_errors self = own_errors self0)
    by by rewrite <-(own_errors_skeleton self), Hsk, own_errors_skeleton.
  pose proof (own_errors_verdict self0) as Hlen.
  destruct (store_rule self info) as [[o t'] i'] eqn:E.
  apply store_rule_inv in E as (Ho & _ & _ & _ & _ & _ & Herr & _).
  simpl. rewrite Herr, Ho, Hv, Hown. destruct (verdict self0) as [b|e] eqn:Hb.
  - split; [|by rewrite app_nil_r]. apply Forall_singleton. by rewrite Hb.
  - exists [], self0, []. split_and!; [done..|].
    destruct (own_errors self0); [done|discriminate Hlen].
Qed.

Lemma collects_then (c : call_result) rebuild rest info ns1 ns2 :
  collects ns1 info c →
  (returned c.1.1 = true → collects ns2 c.2 (rest c.1.2 c.2)) →
  collects (ns1 ++ ns2) info (then_ c rebuild rest).
Proof.
  unfold collects. destruct c as [[[x|e] child] i1]; simpl.
  - intros [Hall1 He1] H2. specialize (H2 eq_refl).
    destruct (rest child i1) as [[[y|e2] t2] i2]; simpl in *.
    + destruct H2 as [Hall2 He2]. split; [by apply Forall_app|].
      by rewrite He2, He1, fmap_app, concat_app, (assoc_L (++)).
    + destruct H2 as (before & m & after & -> & Hall2 & Hm & He2).
      exists (ns1 ++ before), m, after.
      split_and!; [by rewrite (assoc_L (++))|by apply Forall_app|done|].
      by rewrite He2, He1, fmap_app, concat_app, (assoc_L (++)).
  - intros (before & m & after & -> & Hall & Hm & He) _.
    exists before, m, (after ++ ns2).
    split_and!; [by rewrite <-(assoc_L (++))|done..].
Qed.

Lemma validate_collects t : ∀ oi,
  collects (postorder t) (default empty_info oi) (validate t oi).
Proof.
  induction t as [v|v ty l IHl r IHr|v l IHl|v ty l IHl r IHr|v l IHl r IHr
                 |v l IHl r IHr|v x c|v x|v x|v x|v|v];
    intros oi; cbn [validate postorder]; try by apply collects_store.
  all: apply collects_then; [apply (IHl (Some _))|intros _].
  all: try (apply collects_then; [apply (IHr (Some _))|intros _]).
  all: apply collects_store; cbn [skeleton]; by rewrite !validate_keeps_skeleton.
Qed.

(** Whatever the outcome, [validate] keeps the messages that were in the
    dictionary.  When it returns, no rule of the tree raised and it has
    appended the messages of all the nodes, in post-order.  When it raises,
    what it raises is what the rule of the first node, in post-order, whose
    rule raises does, and it has appended the messages of the nodes before
    that one, and no other. *)
Theorem errors_never_lost t oi :
  match (validate t oi).1.1 with
  | Returns _ =>
      Forall (λ m, returned (verdict m) = true) (postorder t)
      ∧ errors_of (validate t oi).2
        = errors_of (default empty_info oi)
          ++ concat (own_errors <$> postorder t)
  | Raises e =>
      ∃ before m after,
        postorder t = before ++ m :: after
        ∧ Forall (λ m, returned (verdict m) = true) before
        ∧ verdict m = Raises e
        ∧ errors_of (validate t oi).2
          = errors_of (default empty_info oi)
            ++ concat (own_errors <$> before)
  end.
Proof. apply validate_collects. Qed.

(** ** Reading [valid] in a pre-order walk *)



End Properties.

(** * The pass run on trees *)

Section Examples.
#[local] Existing Instance demo_runtime.

(** [CompareOperator(">", Number("5"), Number("3"))]: no error, all valid. *)
Lemma validate_well_formed_witness :
  let t := CompareOperator None (VStr ">") (Number None (VFloat 5)) (Number None (VFloat 3)) in
  errors_of (default empty_info None) = []
  ∧ Forall (λ m, spec_rule m = true) (postorder t)
  ∧ ∃ t' i', validate t None = (Returns VNone, t', i')
      ∧ errors_of i' = []
      ∧ skeleton t' = skeleton t
      ∧ Forall (λ m, get_valid m = Some true) (postorder t').
Proof.
  intros t.
  assert (Hrules : Forall (λ m, spec_rule m = true) (postorder t))
    by (repeat constructor).
  split; [reflexivity|]. split; [exact Hrules|].
  exact (validate_well_formed t None eq_refl Hrules).
Defined.

(** [and(Constant("maybe"), Literal("x"))]: the constant is invalid, the
    connective above it is valid. *)
Lemma valid_is_own_verdict_witness :
  let t := LogicalOperator None (VStr "and")
             (Constant None (VStr "maybe")) (Literal None (VStr "x")) in
  let t' := LogicalOperator (Some true) (VStr "and")
              (Constant (Some false) (VStr "maybe")) (Literal (Some true) (VStr "x")) in
  let i' := Info (Some ["Invalid Constant! Got: maybe"]) None in
  validate t None = (Returns VNone, t', i')
  ∧ skeleton t' = skeleton t
  ∧ Forall holds_own_verdict (postorder t')
  ∧ ∀ m, m ∈ postorder t' → verdict m = Returns true → get_valid m = Some true.
Proof.
  intros t t' i'. split; [reflexivity|].
  exact (valid_is_own_verdict t None VNone t' i' eq_refl).
Defined.

(** [Literal("x").validate()] returns [None]. *)
Lemma validate_returns_no_boolean :
  ¬ ∃ b, (validate (Literal None (VStr "x")) None).1.1 = Returns (VBool b).
Proof. intros [b H]. discriminate H. Qed.

(** [Constant("maybe").validate()]: [False] is stored. *)
Lemma validate_stores_verdict_witness :
  let self := Constant None (VStr "maybe") in
  let self' := Constant (Some false) (VStr "maybe") in
  let i' := Info (Some ["Invalid Constant! Got: maybe"]) None in
  validate self None = (Returns VNone, self', i')
  ∧ ∃ b, verdict self' = Returns b ∧ get_valid self' = Some b.
Proof.
  intros self self' i'. split; [reflexivity|].
  exact (validate_stores_verdict self None VNone self' i' eq_refl).
Defined.

(** [Regex("[")] does not compile, [Regex("a+")] does. *)
Lemma Regex_validate_compile_witness :
  let msg := "error('unexpected end of regular expression',)" in
  let info' := record_regex "[" msg (report "Regex compilation failed" empty_info) in
  (_validate (Regex None (VStr "[") None) empty_info
     = (Returns false, Regex None (VStr "[") None, info')
   ∧ errors_of info' = errors_of empty_info ++ ["Regex compilation failed"]
   ∧ (∃ rx, regex info' = Some rx ∧ rx !! "[" = Some msg)
   ∧ validate (Regex None (VStr "[") None) (Some empty_info)
     = (Returns VNone, Regex (Some false) (VStr "[") None, info'))
  ∧ (_validate (Regex None (VStr "a+") None) empty_info
       = (Returns true, Regex None (VStr "a+") (Some "a+"), empty_info)
     ∧ validate (Regex None (VStr "a+") None) (Some empty_info)
       = (Returns VNone, Regex (Some true) (VStr "a+") (Some "a+"), empty_info)).
Proof.
  intros msg info'. split.
  - exact (proj1 (Regex_validate_compile None "[" None empty_info) msg eq_refl).
  - exact (proj2 (Regex_validate_compile None "a+" None empty_info) "a+" eq_refl).
Defined.

(** [Number("abc")] keeps ["abc"], and validation says so. *)
Lemma Number_coerce_then_judge_witness :
  float_of_str "abc" = None
  ∧ Number_init (VStr "abc") = Returns (Number None (VStr "abc"))
  ∧ ∀ v info, _validate (Number v (VStr "abc")) info =
      (Returns false, Number v (VStr "abc"),
       report "Failed to convert number to float! Got: abc" info).
Proof.
  split; [reflexivity|].
  exact (proj2 (proj2 (proj2 (proj2 (proj2 Number_coerce_then_judge)))) eq_refl).
Defined.

(** [Regex(Empty())]: [Empty] has no [value]. *)
Lemma Regex_of_valueless_node_raises :
  ¬ ∃ n, Regex_init (ANode (Empty None)) = Returns n.
Proof. intros [n H]. discriminate H. Qed.

(** [Regex(Literal("a.*"))] takes the literal's value. *)
Lemma construction_total_witness :
  get_value (Literal None (VStr "a.*")) = Some (VStr "a.*")
  ∧ Regex_init (ANode (Literal None (VStr "a.*"))) = Returns (Regex None (VStr "a.*") None).
Proof.
  split; [reflexivity|].
  apply construction_total. reflexivity.
Defined.

(** [xor(contains("x", Regex("[")), Constant("maybe"))]: four messages,
    children first and left before right. *)
Lemma errors_collected_in_postorder_witness :
  let t := LogicalOperator None (VStr "xor")
             (ContainsOperator None (Literal None (VStr "x")) (Regex None (VStr "[") None))
             (Constant None (VStr "maybe")) in
  let t' := LogicalOperator (Some false) (VStr "xor")
              (ContainsOperator (Some false) (Literal (Some true) (VStr "x"))
                 (Regex (Some false) (VStr "[") None))
              (Constant (Some false) (VStr "maybe")) in
  let i' := Info
    (Some ["Regex compilation failed";
           "Contains operator must take a literal or constant! Got: Regex v:[";
           "Invalid Constant! Got: maybe";
           "Unknown logical operator xor"])
    (Some {["[" := "error('unexpected end of regular expression',)"]}) in
  validate t None = (Returns VNone, t', i')
  ∧ skeleton t' = skeleton t
  ∧ errors_of i' =
      errors_of (default empty_info None) ++ concat (own_errors <$> postorder t').
Proof.
  intros t t' i'. split; [reflexivity|].
  exact (errors_collected_in_postorder t None VNone t' i' eq_refl).
Defined.

(** A visitor that notes the class of each node, on
    [not(contains("x", 1.0))]. *)
Lemma pre_visits_preorder_witness :
  let func : visitor (list string) := λ n s, (Returns VNone, s ++ [class_name n]) in
  let t := NegateOperator None
             (ContainsOperator None (Literal None (VStr "x")) (Number None (VFloat 1))) in
  (∀ n s, returned (func n s).1 = true)
  ∧ pre t func [] = (Returns VNone, foldl (λ s n, (func n s).2) [] (preorder t))
  ∧ foldl (λ s n, (func n s).2) [] (preorder t)
    = ["NegateOperator"; "ContainsOperator"; "Literal"; "Number"].
Proof.
  intros func t.
  assert (Hquiet : ∀ n s, returned (func n s).1 = true) by done.
  split; [exact Hquiet|]. split; [|reflexivity].
  exact (proj2 (pre_visits_preorder t func []) Hquiet).
Defined.

(** [Regex(Regex("a+"))] is [Regex("a+")]. *)
Lemma Regex_rewrap_witness :
  Regex_init (AVal (VStr "a+")) = Returns (Regex None (VStr "a+") None)
  ∧ Regex_init (ANode (Regex None (VStr "a+") None)) = Returns (Regex None (VStr "a+") None).
Proof.
  split; [reflexivity|].
  exact (proj1 Regex_rewrap (AVal (VStr "a+")) _ eq_refl).
Defined.

(** [and(Constant("maybe"), Constant("perhaps"))]: two invalid nodes, two
    messages. *)
Lemma errors_empty_iff_all_valid_witness :
  let t := LogicalOperator None (VStr "and")
             (Constant None (VStr "maybe")) (Constant None (VStr "perhaps")) in
  let t' := LogicalOperator (Some true) (VStr "and")
              (Constant (Some false) (VStr "maybe"))
              (Constant (Some false) (VStr "perhaps")) in
  let i' := Info (Some ["Invalid Constant! Got: maybe";
                        "Invalid Constant! Got: perhaps"]) None in
  validate t None = (Returns VNone, t', i')
  ∧ length (errors_of i')
    = (length (errors_of (default empty_info None))
       + length (filter (λ m, get_valid m = Some false) (postorder t')))%nat
  ∧ (errors_of (default empty_info None) = [] →
     (errors_of i' = [] ↔ Forall (λ m, get_valid m = Some true) (postorder t'))).
Proof.
  intros t t' i'. split; [reflexivity|].
  exact (errors_empty_iff_all_valid t None VNone t' i' eq_refl).
Defined.

(** [or(matches("x", Regex("[")), matches("y", Regex("a+")))]: the first
    pattern is recorded with the compiler's message, the second is not. *)
Lemma regex_dictionary_witness :
  let t := LogicalOperator None (VStr "or")
             (MatchOperator None (Literal None (VStr "x")) (Regex None (VStr "[") None))
             (MatchOperator None (Literal None (VStr "y")) (Regex None (VStr "a+") None)) in
  let t' := LogicalOperator (Some true) (VStr "or")
              (MatchOperator (Some true) (Literal (Some true) (VStr "x"))
                 (Regex (Some false) (VStr "[") None))
              (MatchOperator (Some true) (Literal (Some true) (VStr "y"))
                 (Regex (Some true) (VStr "a+") (Some "a+"))) in
  let i' := Info (Some ["Regex compilation failed"])
              (Some {["[" := "error('unexpected end of regular expression',)"]}) in
  validate t None = (Returns VNone, t', i')
  ∧ regex_of i' !! "[" = Some "error('unexpected end of regular expression',)"
  ∧ regex_of i' !! "a+" = regex_of (default empty_info None) !! "a+".
Proof.
  intros t t' i'.
  destruct (regex_dictionary t None VNone t' i' eq_refl) as [Hfails Hothers].
  split; [reflexivity|]. split.
  - apply (Hfails None "[" None); [|reflexivity].
    apply elem_of_app. left. apply elem_of_app. right. apply elem_of_app. left.
    apply list_elem_of_singleton. reflexivity.
  - apply Hothers. intros v c Hin. by exists "a+".
Defined.

(** [and(Constant("maybe"), matches("x", "y"))]: the constant's message is
    kept when the rule of [matches] raises. *)
Lemma errors_never_lost_witness :
  let t := LogicalOperator None (VStr "and")
             (Constant None (VStr "maybe"))
             (MatchOperator None (Literal None (VStr "x")) (Literal None (VStr "y"))) in
  (validate t None).1.1 = Raises format_without_directive
  ∧ errors_of (validate t None).2 = ["Invalid Constant! Got: maybe"]
  ∧ ∃ before m after,
      postorder t = before ++ m :: after
      ∧ Forall (λ m, returned (verdict m) = true) before
      ∧ verdict m = Raises format_without_directive
      ∧ errors_of (validate t None).2
        = errors_of (default empty_info None) ++ concat (own_errors <$> before).
Proof.
  intros t. split; [reflexivity|]. split; [reflexivity|].
  exact (errors_never_lost t None).
Defined.


End Examples.
